(** * Arm4DOF: planar four-segment arm, forward and inverse kinematics

    Shallow embedding of [Arm4DOF.py] (class [Arm3Link] and the function
    [findJointPos]) and the properties of its natural-language description.

    Conventions of the embedding.
    - Python floats are values of an abstract scalar type [F] with the
      operations the program uses (class [Scalar]).  Statements that only
      depend on how the program combines these operations are proved for
      every [Scalar]; statements about the mathematical value of a result
      are proved for the instance of real numbers, in exact arithmetic.
    - Python lists and numpy arrays of numbers are [list F].
    - A Python exception is the [Raise] case of [result].
    - [scipy.optimize.fmin_slsqp] is a library routine outside of the
      program; it is a variable of the development, a function of the
      arguments it is called with (it copies [x0] before iterating, so it
      has no effect on the objects of its caller). *)

From Stdlib Require Import Reals Lra Lia QArith ZArith List.
Import ListNotations.

Set Implicit Arguments.

(** ** Exceptions *)

Inductive exn : Type :=
| IndexError.

Inductive result (A : Type) : Type :=
| Ok (a : A)
| Raise (e : exn).

Arguments Ok {A} a.
Arguments Raise {A} e.

Definition ret {A : Type} (a : A) : result A := Ok a.

Definition bind {A B : Type} (r : result A) (k : A -> result B) : result B :=
  match r with
  | Ok a => k a
  | Raise e => Raise e
  end.

Definition lift1 {A B : Type} (f : A -> B) (r : result A) : result B :=
  bind r (fun a => ret (f a)).

(** Operands are evaluated from left to right, as Python does. *)
Definition lift2 {A B C : Type} (f : A -> B -> C)
  (r1 : result A) (r2 : result B) : result C :=
  bind r1 (fun a => bind r2 (fun b => ret (f a b))).

Definition is_ok {A : Type} (r : result A) : bool :=
  match r with
  | Ok _ => true
  | Raise _ => false
  end.

(** [l[i]] for a constant index [i >= 0]. *)
Definition getitem {A : Type} (l : list A) (i : nat) : result A :=
  match nth_error l i with
  | Some a => Ok a
  | None => Raise IndexError
  end.

(** ** Scalars *)

Class Scalar (F : Type) : Type := {
  flit : Q -> F;            (* a numeric literal *)
  fpi : F;                  (* math.pi *)
  fadd : F -> F -> F;
  fsub : F -> F -> F;
  fmul : F -> F -> F;
  fdiv : F -> F -> F;
  fneg : F -> F;
  fpow : F -> nat -> F;     (* x ** n *)
  fcos : F -> F;            (* np.cos *)
  fsin : F -> F;            (* np.sin *)
  fsqrt : F -> F            (* np.sqrt *)
}.

#[export] Instance R_Scalar : Scalar R := {
  flit := Q2R;
  fpi := PI;
  fadd := Rplus;
  fsub := Rminus;
  fmul := Rmult;
  fdiv := Rdiv;
  fneg := Ropp;
  fpow := pow;
  fcos := cos;
  fsin := sin;
  fsqrt := sqrt
}.

Declare Scope py_scope.
Delimit Scope py_scope with py.

Notation "x <- r ;; k" := (bind r (fun x => k))
  (at level 61, r at next level, right associativity) : py_scope.
Notation "a + b" := (lift2 fadd a b) : py_scope.
Notation "a - b" := (lift2 fsub a b) : py_scope.
Notation "a * b" := (lift2 fmul a b) : py_scope.
Notation "l .[ i ]" := (getitem l i) (at level 1, format "l .[ i ]") : py_scope.

Section Numpy.
Context {F : Type} `{Scalar F}.

(** [np.sum] of a one-dimensional sequence. *)
Definition np_sum (l : list F) : F := fold_left fadd l (flit 0).

(** [zip] of three sequences stops at the end of the shortest one. *)
Fixpoint zip3 {A B C : Type} (la : list A) (lb : list B) (lc : list C)
  : list (A * B * C) :=
  match la, lb, lc with
  | a :: la', b :: lb', c :: lc' => (a, b, c) :: zip3 la' lb' lc'
  | _, _, _ => []
  end.
End Numpy.

(** ** The optimizer call *)

Section Optimizer.
Context {F : Type}.

(** A callback [f(x, *args)]; the program always passes the one-element
    tuple [(xy,)] as [args], so a callback receives [x] and [xy]. *)
Definition callback : Type := list F -> list F -> result F.

(** The arguments of one call of [scipy.optimize.fmin_slsqp].  A keyword
    the call does not give is [None]: the optimizer then uses its own
    default ([ieqcons=()], [bounds=()], [iter=100], [acc=1e-06]). *)
Record slsqp_call : Type := {
  func : callback;
  x0 : list F;
  eqcons : list callback;
  args : list F;
  iprint : Z;
  ieqcons : option (list callback);
  bounds : option (list (F * F));
  iter : option Z;
  acc : option F
}.
End Optimizer.

Arguments callback F : clear implicits.
Arguments slsqp_call F : clear implicits.

(** ** class Arm3Link *)

Module Arm3Link.

Record t (F : Type) : Type := {
  q : list F;            (* self.q, the current joint angles *)
  q0 : list F;           (* self.q0, the resting joint angles *)
  L : list F;            (* self.L, the segment lengths *)
  max_angles : list F;
  min_angles : list F
}.

Section Methods.
Context {F : Type} `{Scalar F}.

Local Open Scope py_scope.

Definition __init__ (q q0 L : option (list F)) : result (t F) :=
  let q := match q with
           | None => [fdiv fpi (flit 4); fdiv fpi (flit 4); flit 0; flit 0]
           | Some q => q
           end in
  let q0 := match q0 with
            | None => [fdiv fpi (flit 4); fdiv fpi (flit 4); flit 0; flit 0]
            | Some q0 => q0
            end in
  let L := match L with
           | None => [flit 1; flit 1; flit 1; flit 1]
           | Some L => L
           end in
  ret {| q := q; q0 := q0; L := L;
         max_angles := [fpi; fpi; fpi; fpi];
         min_angles := [flit 0; flit 0; fneg fpi; fneg fpi] |}.

Definition get_xy (self : t F) (q : option (list F)) : result (list F) :=
  let q := match q with
           | None => Arm3Link.q self
           | Some q => q
           end in
  x <- (L self).[0] * lift1 fcos (q.[0]) +
       (L self).[1] * lift1 fcos (q.[0] + q.[1]) +
       (L self).[2] * lift1 fcos (q.[0] + q.[1] + q.[2]) +
       (L self).[3] * lift1 fcos (ret (np_sum q)) ;;
  y <- (L self).[0] * lift1 fsin (q.[0]) +
       (L self).[1] * lift1 fsin (q.[0] + q.[1]) +
       (L self).[2] * lift1 fsin (q.[0] + q.[1] + q.[2]) +
       (L self).[3] * lift1 fsin (ret (np_sum q)) ;;
  ret [x; y].

(** The three functions that [inv_kin] defines before it calls the
    optimizer.  They close over [self]. *)

Definition weight : list F := [flit 1; flit 1; flit 1.3; flit 1].

Definition distance_to_default (self : t F) : callback F :=
  fun q _args =>
    ret (fsqrt (np_sum
      (map (fun '(qi, q0i, wi) => fmul (fpow (fsub qi q0i) 2) wi)
           (zip3 q (q0 self) weight)))).

Definition x_constraint (self : t F) : callback F :=
  fun q xy =>
    x <- ((L self).[0] * lift1 fcos (q.[0]) +
          (L self).[1] * lift1 fcos (q.[0] + q.[1]) +
          (L self).[2] * lift1 fcos (q.[0] + q.[1] + q.[2]) +
          (L self).[3] * lift1 fcos (ret (np_sum q))) - xy.[0] ;;
    ret x.

Definition y_constraint (self : t F) : callback F :=
  fun q xy =>
    y <- ((L self).[0] * lift1 fsin (q.[0]) +
          (L self).[1] * lift1 fsin (q.[0] + q.[1]) +
          (L self).[2] * lift1 fsin (q.[0] + q.[1] + q.[2]) +
          (L self).[3] * lift1 fsin (ret (np_sum q))) - xy.[1] ;;
    ret y.

(** The argument list of the call at the end of [inv_kin]. *)
Definition inv_kin_call (self : t F) (xy : list F) : slsqp_call F :=
  {| func := distance_to_default self;
     x0 := q self;
     eqcons := [x_constraint self; y_constraint self];
     args := xy;
     iprint := 0;
     ieqcons := None;
     bounds := None;
     iter := None;
     acc := None |}.

Variable fmin_slsqp : slsqp_call F -> result (list F).

(** [inv_kin] is a method: it returns its result together with the
    object after the call. *)
Definition inv_kin (xy : list F) (self : t F) : result (list F) * t F :=
  (fmin_slsqp (inv_kin_call self xy), self).

End Methods.
End Arm3Link.

Section FindJointPos.
Context {F : Type} `{Scalar F}.
Variable fmin_slsqp : slsqp_call F -> result (list F).

Local Open Scope py_scope.

Definition findJointPos (x y : F) : result (list F) :=
  arm <- Arm3Link.__init__ None None None ;;
  let xy := [x; y] in
  fst (Arm3Link.inv_kin fmin_slsqp xy arm).
End FindJointPos.

(** ** The formulas of the description, over the real numbers

    These definitions follow the words of the description, not the program;
    the theorems below compare the program with them. *)

Section Description.
Local Open Scope R_scope.

Definition Rsum (l : list R) : R := fold_right Rplus 0 l.

(** [theta q i]: the cumulative sum of the joint angles [0..i]. *)
Definition theta (q : list R) (i : nat) : R := Rsum (firstn (S i) q).

(** position = sum over the four links of [L_i * (cos theta_i, sin theta_i)]. *)
Definition spec_forward_kinematics (L q : list R) : R * R :=
  (Rsum (map (fun i => nth i L 0 * cos (theta q i)) (seq 0 4)),
   Rsum (map (fun i => nth i L 0 * sin (theta q i)) (seq 0 4))).

Definition spec_weight : list R := [1; 1; 1.3; 1].

(** f(q) = sqrt (sum over the four joints of
    [weight_i * (q_i - rest_pose_i)^2]). *)
Definition spec_objective (rest_pose q : list R) : R :=
  sqrt (Rsum (map (fun i => nth i spec_weight 0 *
                            (nth i q 0 - nth i rest_pose 0) ^ 2)
                  (seq 0 4))).

(** [q + d * e_i]: the vector [q] with [d] added to component [i]. *)
Fixpoint shift_joint (i : nat) (d : R) (q : list R) : list R :=
  match q, i with
  | [], _ => []
  | a :: q', O => (a + d) :: q'
  | a :: q', S i' => a :: shift_joint i' d q'
  end.
End Description.

(** ** Concrete arms and a concrete optimizer, for the examples *)

Definition unit_arm : Arm3Link.t R :=
  {| Arm3Link.q := [0; 0; 0; 0]%R;
     Arm3Link.q0 := [0; 0; 0; 0]%R;
     Arm3Link.L := [1; 1; 1; 1]%R;
     Arm3Link.max_angles := [PI; PI; PI; PI];
     Arm3Link.min_angles := [0; 0; - PI; - PI]%R |}.

(** The arm [unit_arm] with other joint limits. *)
Definition narrow_arm : Arm3Link.t R :=
  {| Arm3Link.q := [0; 0; 0; 0]%R;
     Arm3Link.q0 := [0; 0; 0; 0]%R;
     Arm3Link.L := [1; 1; 1; 1]%R;
     Arm3Link.max_angles := [1; 1; 1; 1]%R;
     Arm3Link.min_angles := [-1; -1; -1; -1]%R |}.

(** An arm whose current pose is not its rest pose. *)
Definition bent_arm : Arm3Link.t R :=
  {| Arm3Link.q := [1; 1; 1; 1]%R;
     Arm3Link.q0 := [0; 0; 0; 0]%R;
     Arm3Link.L := [1; 1; 1; 1]%R;
     Arm3Link.max_angles := [PI; PI; PI; PI];
     Arm3Link.min_angles := [0; 0; - PI; - PI]%R |}.

(** An arm whose rest pose has three components only. *)
Definition short_rest_arm : Arm3Link.t R :=
  {| Arm3Link.q := [0; 0; 0; 0]%R;
     Arm3Link.q0 := [0; 0; 0]%R;
     Arm3Link.L := [1; 1; 1; 1]%R;
     Arm3Link.max_angles := [PI; PI; PI; PI];
     Arm3Link.min_angles := [0; 0; - PI; - PI]%R |}.

(** An optimizer that stops before its first iteration and returns its
    initial guess. *)
Definition no_iteration (call : slsqp_call R) : result (list R) :=
  Ok (x0 call).

(** ** Quantities and arms of the further properties *)

(** The total length of the four links that [get_xy] reads. *)
Definition reach (self : Arm3Link.t R) : R :=
  Rsum (map Rabs (firstn 4 (Arm3Link.L self))).

(** The arm [bent_arm] with every link twice as long. *)
Definition long_arm : Arm3Link.t R :=
  {| Arm3Link.q := [1; 1; 1; 1]%R;
     Arm3Link.q0 := [0; 0; 0; 0]%R;
     Arm3Link.L := [2 * 1; 2 * 1; 2 * 1; 2 * 1]%R;
     Arm3Link.max_angles := [PI; PI; PI; PI];
     Arm3Link.min_angles := [0; 0; - PI; - PI]%R |}.

(** ** Auxiliary facts *)

Lemma Q2R_zero : Q2R 0 = 0%R.
Proof. unfold Q2R; simpl; lra. Qed.

Lemma Q2R_one : Q2R 1 = 1%R.
Proof. unfold Q2R; simpl; lra. Qed.

Lemma length_4_inv (A : Type) (l : list A) :
  length l = 4%nat -> exists a b c d, l = [a; b; c; d].
Proof.
  destruct l as [|a [|b [|c [|d [|e l]]]]]; simpl; try discriminate.
  intros _. now exists a, b, c, d.
Qed.

Lemma length_ge_4_inv (A : Type) (l : list A) :
  (4 <= length l)%nat -> exists a b c d l', l = a :: b :: c :: d :: l'.
Proof.
  destruct l as [|a [|b [|c [|d l]]]]; simpl; intros Hl;
    try (exfalso; repeat apply le_S_n in Hl; now inversion Hl).
  now exists a, b, c, d, l.
Qed.

Lemma cos_shift_2PI (x y : R) : (y = x + 2 * PI)%R -> cos y = cos x.
Proof.
  intros ->. rewrite cos_plus, cos_2PI, sin_2PI. lra.
Qed.

Lemma sin_shift_2PI (x y : R) : (y = x + 2 * PI)%R -> sin y = sin x.
Proof.
  intros ->. rewrite sin_plus, cos_2PI, sin_2PI. lra.
Qed.

(** ** Forward kinematics *)

(** C1. For a four-element joint vector [q] and four segment lengths [L],
    [get_xy(q)] returns the pair of the sums of [L_i * cos theta_i] and of
    [L_i * sin theta_i], where [theta_i] is the cumulative sum of the joint
    angles [0..i]. *)
Theorem get_xy_cumulative_formula (self : Arm3Link.t R) (q : list R) :
  length q = 4%nat ->
  length (Arm3Link.L self) = 4%nat ->
  Arm3Link.get_xy self (Some q) =
    Ok [fst (spec_forward_kinematics (Arm3Link.L self) q);
        snd (spec_forward_kinematics (Arm3Link.L self) q)].
Proof.
  intros Hq HL.
  destruct (length_4_inv q Hq) as [a [b [c [d Eq]]]]; subst q.
  destruct (length_4_inv _ HL) as [l0 [l1 [l2 [l3 HL']]]].
  unfold Arm3Link.get_xy, spec_forward_kinematics, theta.
  rewrite HL'. cbn. unfold ret. rewrite Q2R_zero.
  do 2 f_equal.
  - replace (0 + a + b + c + d)%R with (a + (b + (c + (d + 0))))%R by lra.
    replace (a + b + c)%R with (a + (b + (c + 0)))%R by lra.
    replace (a + b)%R with (a + (b + 0))%R by lra.
    replace (cos a) with (cos (a + 0)) by (f_equal; lra).
    lra.
  - f_equal.
    replace (0 + a + b + c + d)%R with (a + (b + (c + (d + 0))))%R by lra.
    replace (a + b + c)%R with (a + (b + (c + 0)))%R by lra.
    replace (a + b)%R with (a + (b + 0))%R by lra.
    replace (sin a) with (sin (a + 0)) by (f_equal; lra).
    lra.
Qed.

Lemma get_xy_cumulative_formula_witness :
  length [0; 0; 0; 0]%R = 4%nat /\
  length (Arm3Link.L unit_arm) = 4%nat /\
  Arm3Link.get_xy unit_arm (Some [0; 0; 0; 0]%R) =
    Ok [fst (spec_forward_kinematics (Arm3Link.L unit_arm) [0; 0; 0; 0]%R);
        snd (spec_forward_kinematics (Arm3Link.L unit_arm) [0; 0; 0; 0]%R)].
Proof.
  split; [reflexivity | split; [reflexivity |]].
  apply (@get_xy_cumulative_formula unit_arm [0; 0; 0; 0]%R); reflexivity.
Defined.

(** C9. Forward kinematics is periodic in each joint: for a four-element
    joint vector [q] and an index [i] among [0..3], adding [2 * PI] to
    component [i] of [q] does not change [get_xy(q)]. *)
Theorem get_xy_periodic (self : Arm3Link.t R) (q : list R) (i : nat) :
  length q = 4%nat ->
  (i < 4)%nat ->
  Arm3Link.get_xy self (Some (shift_joint i (2 * PI) q)) =
    Arm3Link.get_xy self (Some q).
Proof.
  intros Hq Hi.
  destruct (length_4_inv q Hq) as [a [b [c [d Eq]]]]; subst q.
  unfold Arm3Link.get_xy.
  destruct (Arm3Link.L self) as [|l0 [|l1 [|l2 [|l3 L']]]];
    destruct i as [|[|[|[|i]]]];
    try (exfalso; repeat apply PeanoNat.lt_S_n in Hi; now inversion Hi);
    try reflexivity;
    cbn; unfold ret; rewrite Q2R_zero.
  - rewrite (@cos_shift_2PI a (a + 2 * PI)), (@sin_shift_2PI a (a + 2 * PI)),
      (@cos_shift_2PI (a + b) (a + 2 * PI + b)),
      (@sin_shift_2PI (a + b) (a + 2 * PI + b)),
      (@cos_shift_2PI (a + b + c) (a + 2 * PI + b + c)),
      (@sin_shift_2PI (a + b + c) (a + 2 * PI + b + c)),
      (@cos_shift_2PI (0 + a + b + c + d) (0 + (a + 2 * PI) + b + c + d)),
      (@sin_shift_2PI (0 + a + b + c + d) (0 + (a + 2 * PI) + b + c + d));
      (reflexivity || lra).
  - rewrite (@cos_shift_2PI (a + b) (a + (b + 2 * PI))),
      (@sin_shift_2PI (a + b) (a + (b + 2 * PI))),
      (@cos_shift_2PI (a + b + c) (a + (b + 2 * PI) + c)),
      (@sin_shift_2PI (a + b + c) (a + (b + 2 * PI) + c)),
      (@cos_shift_2PI (0 + a + b + c + d) (0 + a + (b + 2 * PI) + c + d)),
      (@sin_shift_2PI (0 + a + b + c + d) (0 + a + (b + 2 * PI) + c + d));
      (reflexivity || lra).
  - rewrite (@cos_shift_2PI (a + b + c) (a + b + (c + 2 * PI))),
      (@sin_shift_2PI (a + b + c) (a + b + (c + 2 * PI))),
      (@cos_shift_2PI (0 + a + b + c + d) (0 + a + b + (c + 2 * PI) + d)),
      (@sin_shift_2PI (0 + a + b + c + d) (0 + a + b + (c + 2 * PI) + d));
      (reflexivity || lra).
  - rewrite (@cos_shift_2PI (0 + a + b + c + d) (0 + a + b + c + (d + 2 * PI))),
      (@sin_shift_2PI (0 + a + b + c + d) (0 + a + b + c + (d + 2 * PI)));
      (reflexivity || lra).
Qed.

Lemma get_xy_periodic_witness :
  length [0; 0; 0; 0]%R = 4%nat /\
  (2 < 4)%nat /\
  Arm3Link.get_xy unit_arm (Some (shift_joint 2 (2 * PI) [0; 0; 0; 0]%R)) =
    Arm3Link.get_xy unit_arm (Some [0; 0; 0; 0]%R).
Proof.
  split; [reflexivity | split; [repeat constructor |]].
  apply (@get_xy_periodic unit_arm [0; 0; 0; 0]%R 2%nat);
    [reflexivity | repeat constructor].
Defined.

(** ** The objective of the solver *)

(** C2. For a four-element joint vector [q] (and a rest pose with its four
    components), [distance_to_default(q)] is the square root of the sum of
    [weight_i * (q_i - rest_pose_i)^2], with the fixed weights
    [1, 1, 1.3, 1]: only the weight of index 2 is above 1. *)
Theorem distance_to_default_formula
  (self : Arm3Link.t R) (q xy : list R) :
  length q = 4%nat ->
  (4 <= length (Arm3Link.q0 self))%nat ->
  Arm3Link.distance_to_default self q xy =
    Ok (spec_objective (Arm3Link.q0 self) q) /\
  Arm3Link.weight = spec_weight /\
  (forall (i : nat) (w : R),
     nth_error Arm3Link.weight i = Some w -> (1 < w)%R <-> i = 2%nat).
Proof.
  intros Hq Hq0.
  destruct (length_4_inv q Hq) as [a [b [c [d Eq]]]]; subst q.
  destruct (length_ge_4_inv _ Hq0) as [r0 [r1 [r2 [r3 [r' Hr]]]]].
  split; [| split].
  - unfold Arm3Link.distance_to_default, spec_objective, spec_weight.
    rewrite Hr. cbn. unfold ret. rewrite Q2R_zero, Q2R_one.
    do 2 f_equal. lra.
  - unfold Arm3Link.weight, spec_weight. cbn. now rewrite Q2R_one.
  - intros i w Hw.
    destruct i as [|[|[|[|i]]]]; cbn in Hw;
      try (injection Hw as <-);
      try (now destruct i);
      rewrite ?Q2R_one; split; intros Hi; try discriminate; try lra;
      try reflexivity.
Qed.

Lemma distance_to_default_formula_witness :
  length [1; 2; 3; 4]%R = 4%nat /\
  (4 <= length (Arm3Link.q0 unit_arm))%nat /\
  Arm3Link.distance_to_default unit_arm [1; 2; 3; 4]%R [0; 0]%R =
    Ok (spec_objective (Arm3Link.q0 unit_arm) [1; 2; 3; 4]%R).
Proof.
  split; [reflexivity | split; [apply le_n |]].
  apply (@distance_to_default_formula unit_arm [1; 2; 3; 4]%R [0; 0]%R);
    [reflexivity | apply le_n].
Defined.

(** ** The constraints of the solver *)

Section Generic.
Context {F : Type} `{Scalar F}.
Variable fmin_slsqp : slsqp_call F -> result (list F).

Local Open Scope py_scope.

(** C3. For a four-element joint vector [q] and a target pair [xy], the
    two equality constraints are the residuals of forward kinematics:
    [x_constraint(q, xy)] is [get_xy(q)[0] - xy[0]] and
    [y_constraint(q, xy)] is [get_xy(q)[1] - xy[1]]; with four segment
    lengths both are defined. *)
Theorem constraints_are_get_xy_residuals
  (self : Arm3Link.t F) (q xy : list F) :
  length q = 4%nat ->
  length xy = 2%nat ->
  Arm3Link.x_constraint self q xy =
    (p <- Arm3Link.get_xy self (Some q) ;; p.[0]) - xy.[0] /\
  Arm3Link.y_constraint self q xy =
    (p <- Arm3Link.get_xy self (Some q) ;; p.[1]) - xy.[1] /\
  ((4 <= length (Arm3Link.L self))%nat ->
   is_ok (Arm3Link.x_constraint self q xy) = true /\
   is_ok (Arm3Link.y_constraint self q xy) = true).
Proof.
  intros Hq Hxy.
  destruct (length_4_inv q Hq) as [a [b [c [d Eq]]]]; subst q.
  destruct xy as [|tx [|ty [|tz xy]]]; try discriminate Hxy.
  unfold Arm3Link.x_constraint, Arm3Link.y_constraint, Arm3Link.get_xy.
  destruct (Arm3Link.L self) as [|l0 [|l1 [|l2 [|l3 L']]]]; cbn;
    (split; [reflexivity | split; [reflexivity |]]);
    intros HL; try (split; reflexivity);
    exfalso; repeat apply le_S_n in HL; inversion HL.
Qed.

(** ** The call of the optimizer *)

(** C4. [inv_kin] returns what the optimizer returns for a call whose
    initial guess [x0] is the field [q] of the arm (the current pose) and
    whose objective measures the distance to the field [q0] (the rest
    pose). *)
Theorem inv_kin_starts_at_current_pose
  (self : Arm3Link.t F) (xy : list F) :
  let call := Arm3Link.inv_kin_call self xy in
  fst (Arm3Link.inv_kin fmin_slsqp xy self) = fmin_slsqp call /\
  x0 call = Arm3Link.q self /\
  forall q a : list F,
    func call q a =
      ret (fsqrt (np_sum
        (map (fun '(qi, q0i, wi) => fmul (fpow (fsub qi q0i) 2) wi)
             (zip3 q (Arm3Link.q0 self) Arm3Link.weight)))).
Proof.
  cbv zeta. split; [reflexivity | split; [reflexivity |]].
  intros q a. reflexivity.
Qed.

(** C6, as the program has it.  [inv_kin] gives the optimizer neither
    [acc] nor [iter]: whatever the arm and the target are, the optimizer
    runs with its own default tolerance and iteration cap. *)
Theorem inv_kin_uses_optimizer_defaults
  (self : Arm3Link.t F) (xy : list F) :
  fst (Arm3Link.inv_kin fmin_slsqp xy self) =
    fmin_slsqp (Arm3Link.inv_kin_call self xy) /\
  acc (Arm3Link.inv_kin_call self xy) = None /\
  iter (Arm3Link.inv_kin_call self xy) = None.
Proof. repeat split. Qed.

(** C8. The joint limits have no part in the solve: two arms with the
    same segment lengths, rest pose and current pose give the same result
    for every target, whatever their limits are; no inequality constraint
    and no bound is passed to the optimizer. *)
Theorem inv_kin_ignores_joint_limits
  (arm1 arm2 : Arm3Link.t F) (xy : list F) :
  Arm3Link.L arm1 = Arm3Link.L arm2 ->
  Arm3Link.q0 arm1 = Arm3Link.q0 arm2 ->
  Arm3Link.q arm1 = Arm3Link.q arm2 ->
  fst (Arm3Link.inv_kin fmin_slsqp xy arm1) =
    fst (Arm3Link.inv_kin fmin_slsqp xy arm2) /\
  ieqcons (Arm3Link.inv_kin_call arm1 xy) = None /\
  bounds (Arm3Link.inv_kin_call arm1 xy) = None.
Proof.
  destruct arm1 as [q1 r1 L1 mx1 mn1], arm2 as [q2 r2 L2 mx2 mn2].
  cbn. intros -> -> ->. repeat split.
Qed.

(** C10. [inv_kin] leaves the arm as it was: after the call the fields
    [q], [q0], [L], [max_angles] and [min_angles] hold the values they
    held before it; the result of the solve is not stored in [q]. *)
Theorem inv_kin_leaves_arm_unchanged
  (self : Arm3Link.t F) (xy : list F) :
  let self' := snd (Arm3Link.inv_kin fmin_slsqp xy self) in
  self' = self /\
  Arm3Link.q self' = Arm3Link.q self /\
  Arm3Link.q0 self' = Arm3Link.q0 self /\
  Arm3Link.L self' = Arm3Link.L self /\
  Arm3Link.max_angles self' = Arm3Link.max_angles self /\
  Arm3Link.min_angles self' = Arm3Link.min_angles self.
Proof. cbv zeta. repeat split. Qed.

(** ** Construction *)

(** C5, as the program has it.  The constructor checks no length and
    never fails: it stores each sequence it is given, of any length, and
    the four-element default in place of a missing one. *)
Theorem init_always_succeeds (q q0 L : option (list F)) :
  exists arm : Arm3Link.t F,
    Arm3Link.__init__ q q0 L = Ok arm /\
    Arm3Link.q arm =
      match q with
      | Some l => l
      | None => [fdiv fpi (flit 4); fdiv fpi (flit 4); flit 0; flit 0]
      end /\
    Arm3Link.q0 arm =
      match q0 with
      | Some l => l
      | None => [fdiv fpi (flit 4); fdiv fpi (flit 4); flit 0; flit 0]
      end /\
    Arm3Link.L arm =
      match L with
      | Some l => l
      | None => [flit 1; flit 1; flit 1; flit 1]
      end.
Proof.
  eexists. split; [reflexivity |]. cbn. repeat split.
Qed.

(** ** The entry point *)

(** C7. [findJointPos(x, y)] builds the default arm, with segment
    lengths [1, 1, 1, 1] and with initial pose and rest pose
    [pi/4, pi/4, 0, 0], and returns the result of [inv_kin] on that arm
    for the target [[x, y]]. *)
Theorem findJointPos_solves_on_default_arm (x y : F) :
  exists arm : Arm3Link.t F,
    Arm3Link.__init__ None None None = Ok arm /\
    Arm3Link.L arm = [flit 1; flit 1; flit 1; flit 1] /\
    Arm3Link.q arm =
      [fdiv fpi (flit 4); fdiv fpi (flit 4); flit 0; flit 0] /\
    Arm3Link.q0 arm = Arm3Link.q arm /\
    findJointPos fmin_slsqp x y =
      fst (Arm3Link.inv_kin fmin_slsqp [x; y] arm).
Proof.
  eexists. split; [reflexivity |]. cbn. repeat split.
Qed.

End Generic.

(** ** Examples over the real numbers *)

Lemma constraints_are_get_xy_residuals_witness :
  length [0; 0; 0; 0]%R = 4%nat /\
  length [4; 0]%R = 2%nat /\
  Arm3Link.x_constraint unit_arm [0; 0; 0; 0]%R [4; 0]%R =
    lift2 fsub
      (bind (Arm3Link.get_xy unit_arm (Some [0; 0; 0; 0]%R))
            (fun p => getitem p 0))
      (getitem [4; 0]%R 0).
Proof.
  split; [reflexivity | split; [reflexivity |]].
  apply (@constraints_are_get_xy_residuals R R_Scalar unit_arm
           [0; 0; 0; 0]%R [4; 0]%R); reflexivity.
Defined.

Lemma inv_kin_ignores_joint_limits_witness :
  Arm3Link.L unit_arm = Arm3Link.L narrow_arm /\
  Arm3Link.q0 unit_arm = Arm3Link.q0 narrow_arm /\
  Arm3Link.q unit_arm = Arm3Link.q narrow_arm /\
  Arm3Link.max_angles unit_arm <> Arm3Link.max_angles narrow_arm /\
  fst (Arm3Link.inv_kin no_iteration [4; 0]%R unit_arm) =
    fst (Arm3Link.inv_kin no_iteration [4; 0]%R narrow_arm).
Proof.
  split; [reflexivity | split; [reflexivity | split; [reflexivity | split]]].
  - cbn. intros Heq. injection Heq as Heq _.
    pose proof PI_RGT_0 as Hpi. pose proof PI2_1 as Hpi2. lra.
  - apply (@inv_kin_ignores_joint_limits R R_Scalar no_iteration
             unit_arm narrow_arm [4; 0]%R); reflexivity.
Defined.

(** With an optimizer that returns its initial guess, [inv_kin] returns the
    current pose of the arm, not its rest pose. *)
Example inv_kin_no_iteration_bent_arm :
  fst (Arm3Link.inv_kin no_iteration [4; 0]%R bent_arm) =
    Ok (Arm3Link.q bent_arm) /\
  Arm3Link.q bent_arm <> Arm3Link.q0 bent_arm.
Proof.
  split; [reflexivity |].
  cbn. intros Heq. injection Heq as Heq _. lra.
Qed.

(** C5, as the description has it, fails: a pose of one element is not of
    length 4, and the constructor accepts it. *)
Lemma init_accepts_one_element_pose :
  length [0%R] <> 4%nat /\
  Arm3Link.__init__ (Some [0%R]) None None =
    Ok {| Arm3Link.q := [0%R];
          Arm3Link.q0 := [PI / Q2R 4; PI / Q2R 4; Q2R 0; Q2R 0]%R;
          Arm3Link.L := [Q2R 1; Q2R 1; Q2R 1; Q2R 1];
          Arm3Link.max_angles := [PI; PI; PI; PI];
          Arm3Link.min_angles := [Q2R 0; Q2R 0; - PI; - PI]%R |}.
Proof.
  split; [discriminate | reflexivity].
Qed.

(** C6, as the description has it, fails: no arm and no target make
    [inv_kin] ask the optimizer for a tolerance of [0.001] or for a cap of
    [200] iterations. *)
Lemma inv_kin_cannot_override_tolerances :
  ~ (exists (self : Arm3Link.t R) (xy : list R),
       acc (Arm3Link.inv_kin_call self xy) = Some 0.001%R) /\
  ~ (exists (self : Arm3Link.t R) (xy : list R),
       iter (Arm3Link.inv_kin_call self xy) = Some 200%Z).
Proof.
  split; intros [self [xy Hcall]]; discriminate Hcall.
Qed.

(** [get_xy()] without an argument is [get_xy] of the current pose. *)
Example get_xy_default_argument (self : Arm3Link.t R) :
  Arm3Link.get_xy self None = Arm3Link.get_xy self (Some (Arm3Link.q self)).
Proof. reflexivity. Qed.

(** [zip] stops at the shortest sequence: with a rest pose of three
    components the objective does not see the fourth joint. *)
Example distance_to_default_short_rest_pose (d : R) :
  Arm3Link.distance_to_default short_rest_arm [0; 0; 0; d]%R [4; 0]%R =
    Ok (sqrt 0).
Proof.
  unfold Arm3Link.distance_to_default. cbn. unfold ret.
  rewrite Q2R_zero, Q2R_one. do 2 f_equal.
  replace (Q2R 1.3) with 1.3%R by reflexivity. lra.
Qed.

(** ** Further properties of forward kinematics *)

Lemma fold_left_Rplus (l : list R) (s : R) :
  fold_left Rplus l s = (s + Rsum l)%R.
Proof.
  revert s. induction l as [|a l IH]; intros s; simpl.
  - lra.
  - rewrite IH. lra.
Qed.

Lemma np_sum_Rsum (l : list R) : np_sum l = Rsum l.
Proof.
  unfold np_sum. simpl. rewrite fold_left_Rplus, Q2R_zero. lra.
Qed.

(** The two coordinates of the hand, for an arm with at least four lengths
    and a joint vector with at least three angles. *)
Lemma get_xy_closed_form (self : Arm3Link.t R)
  (l0 l1 l2 l3 a b c : R) (L' rest : list R) :
  Arm3Link.L self = l0 :: l1 :: l2 :: l3 :: L' ->
  Arm3Link.get_xy self (Some (a :: b :: c :: rest)) =
    Ok [(l0 * cos a + l1 * cos (a + b) + l2 * cos (a + b + c) +
         l3 * cos (a + b + c + Rsum rest))%R;
        (l0 * sin a + l1 * sin (a + b) + l2 * sin (a + b + c) +
         l3 * sin (a + b + c + Rsum rest))%R].
Proof.
  intros HL. unfold Arm3Link.get_xy. rewrite HL.
  rewrite np_sum_Rsum.
  replace (Rsum (a :: b :: c :: rest)) with (a + b + c + Rsum rest)%R
    by (simpl; lra).
  reflexivity.
Qed.

Lemma x_constraint_closed_form (self : Arm3Link.t R)
  (l0 l1 l2 l3 a b c tx : R) (L' rest txy : list R) :
  Arm3Link.L self = l0 :: l1 :: l2 :: l3 :: L' ->
  Arm3Link.x_constraint self (a :: b :: c :: rest) (tx :: txy) =
    Ok (l0 * cos a + l1 * cos (a + b) + l2 * cos (a + b + c) +
        l3 * cos (a + b + c + Rsum rest) - tx)%R.
Proof.
  intros HL. unfold Arm3Link.x_constraint. rewrite HL.
  rewrite np_sum_Rsum.
  replace (Rsum (a :: b :: c :: rest)) with (a + b + c + Rsum rest)%R
    by (simpl; lra).
  reflexivity.
Qed.

Lemma y_constraint_closed_form (self : Arm3Link.t R)
  (l0 l1 l2 l3 a b c tx ty : R) (L' rest txy : list R) :
  Arm3Link.L self = l0 :: l1 :: l2 :: l3 :: L' ->
  Arm3Link.y_constraint self (a :: b :: c :: rest) (tx :: ty :: txy) =
    Ok (l0 * sin a + l1 * sin (a + b) + l2 * sin (a + b + c) +
        l3 * sin (a + b + c + Rsum rest) - ty)%R.
Proof.
  intros HL. unfold Arm3Link.y_constraint. rewrite HL.
  rewrite np_sum_Rsum.
  replace (Rsum (a :: b :: c :: rest)) with (a + b + c + Rsum rest)%R
    by (simpl; lra).
  reflexivity.
Qed.

(** ** Where the program raises, for every interpretation of the scalars *)

Section Definedness.
Context {F : Type} `{Scalar F}.

(** [get_xy] returns a pair exactly when the joint vector it uses (its
    argument, or the current pose without one) has at least three angles
    and the arm at least four lengths; otherwise it raises.  The fourth
    angle is read by [np.sum] only, so three angles are enough. *)
Theorem get_xy_defined_iff (self : Arm3Link.t F) (q : option (list F)) :
  is_ok (Arm3Link.get_xy self q) = true <->
  (3 <= length (match q with
                | None => Arm3Link.q self
                | Some q => q
                end) /\
   4 <= length (Arm3Link.L self))%nat.
Proof.
  unfold Arm3Link.get_xy.
  set (angles := match q with
                 | None => Arm3Link.q self
                 | Some q => q
                 end).
  destruct (Arm3Link.L self) as [|l0 [|l1 [|l2 [|l3 L']]]];
    destruct angles as [|a [|b [|c rest]]]; cbn;
    (split; [try discriminate; intros _; split; lia
            | try (intros [? ?]; lia); reflexivity]).
Qed.

(** [x_constraint] needs three angles, four lengths and one target
    coordinate; [y_constraint] needs two target coordinates. *)
Theorem constraints_defined_iff (self : Arm3Link.t F) (q xy : list F) :
  (is_ok (Arm3Link.x_constraint self q xy) = true <->
   (3 <= length q /\ 4 <= length (Arm3Link.L self) /\ 1 <= length xy)%nat) /\
  (is_ok (Arm3Link.y_constraint self q xy) = true <->
   (3 <= length q /\ 4 <= length (Arm3Link.L self) /\ 2 <= length xy)%nat).
Proof.
  unfold Arm3Link.x_constraint, Arm3Link.y_constraint.
  destruct (Arm3Link.L self) as [|l0 [|l1 [|l2 [|l3 L']]]];
    destruct q as [|a [|b [|c rest]]];
    destruct xy as [|tx [|ty txy]]; cbn;
    (split; split; try discriminate; try (intros [? [? ?]]; lia);
     intros _; repeat split; lia).
Qed.

(** The objective reads the first four angles only: what follows them in
    the joint vector does not change its value. *)
Theorem distance_to_default_ignores_extra_angles
  (self : Arm3Link.t F) (q extra xy : list F) :
  (4 <= length q)%nat ->
  Arm3Link.distance_to_default self (q ++ extra) xy =
    Arm3Link.distance_to_default self q xy.
Proof.
  intros Hq.
  destruct (length_ge_4_inv q Hq) as [a [b [c [d [q' Eq]]]]]; subst q.
  unfold Arm3Link.distance_to_default.
  destruct (Arm3Link.q0 self) as [|r0 [|r1 [|r2 [|r3 r']]]]; try reflexivity.
  cbn. destruct q', r', extra; reflexivity.
Qed.

End Definedness.

(** ** The reach of the arm *)

(** Adding one link of length [l] and direction [(c, s)] to a point within
    distance [r] of the origin gives a point within distance [r + |l|]. *)
Lemma one_more_link (x y r l c s : R) :
  (0 <= r)%R ->
  (x * x + y * y <= r * r)%R ->
  (c * c + s * s = 1)%R ->
  ((x + l * c) * (x + l * c) + (y + l * s) * (y + l * s)
   <= (r + Rabs l) * (r + Rabs l))%R.
Proof.
  intros Hr Hxy Hcs.
  assert (Hdot : ((x * c + y * s) * (x * c + y * s) <= r * r)%R).
  { assert (Hid : ((x * c + y * s) * (x * c + y * s) +
                   (x * s - y * c) * (x * s - y * c) =
                   (x * x + y * y) * (c * c + s * s))%R) by ring.
    rewrite Hcs in Hid.
    pose proof (Rle_0_sqr (x * s - y * c)) as Hsq. unfold Rsqr in Hsq.
    lra. }
  assert (Habs : (0 <= Rabs l)%R) by apply Rabs_pos.
  assert (Hl2 : (Rabs l * Rabs l = l * l)%R).
  { unfold Rabs. destruct (Rcase_abs l); ring. }
  assert (Hcross : (l * (x * c + y * s) <= Rabs l * r)%R).
  { assert (Hsq : ((l * (x * c + y * s)) * (l * (x * c + y * s))
                   <= (Rabs l * r) * (Rabs l * r))%R).
    { replace ((l * (x * c + y * s)) * (l * (x * c + y * s)))%R
        with ((l * l) * ((x * c + y * s) * (x * c + y * s)))%R by ring.
      replace ((Rabs l * r) * (Rabs l * r))%R
        with ((l * l) * (r * r))%R by (rewrite <- Hl2; ring).
      apply Rmult_le_compat_l; [nra | exact Hdot]. }
    assert (Hnn : (0 <= Rabs l * r)%R) by (apply Rmult_le_pos; assumption).
    destruct (Rle_lt_dec (l * (x * c + y * s)) (Rabs l * r)) as [Hle|Hgt];
      [exact Hle | nra]. }
  replace ((x + l * c) * (x + l * c) + (y + l * s) * (y + l * s))%R
    with ((x * x + y * y) + (l * l) * (c * c + s * s) +
          2 * (l * (x * c + y * s)))%R by ring.
  rewrite Hcs. nra.
Qed.

Lemma cos_sin_unit (t : R) : (cos t * cos t + sin t * sin t = 1)%R.
Proof.
  pose proof (sin2_cos2 t) as Hsc. unfold Rsqr in Hsc. lra.
Qed.

Lemma Ok_pair_eq (x y x' y' : R) :
  x = x' -> y = y' -> Ok [x; y] = Ok [x'; y'].
Proof. intros -> ->. reflexivity. Qed.

(** Four links, whatever their directions, end within the sum of their
    lengths. *)
Lemma links_within_reach (l0 l1 l2 l3 t0 t1 t2 t3 : R) :
  ((l0 * cos t0 + l1 * cos t1 + l2 * cos t2 + l3 * cos t3) *
   (l0 * cos t0 + l1 * cos t1 + l2 * cos t2 + l3 * cos t3) +
   (l0 * sin t0 + l1 * sin t1 + l2 * sin t2 + l3 * sin t3) *
   (l0 * sin t0 + l1 * sin t1 + l2 * sin t2 + l3 * sin t3)
   <= (Rabs l0 + (Rabs l1 + (Rabs l2 + (Rabs l3 + 0)))) *
      (Rabs l0 + (Rabs l1 + (Rabs l2 + (Rabs l3 + 0)))))%R.
Proof.
  pose proof (@one_more_link 0 0 0 l0 (cos t0) (sin t0)
                (Rle_refl 0)) as H0.
  assert (H0' := H0 ltac:(lra) (cos_sin_unit t0)).
  assert (R0 : (0 <= 0 + Rabs l0)%R) by (pose proof (Rabs_pos l0); lra).
  pose proof (one_more_link l1 R0 H0' (cos_sin_unit t1)) as H1.
  assert (R1 : (0 <= 0 + Rabs l0 + Rabs l1)%R)
    by (pose proof (Rabs_pos l1); lra).
  pose proof (one_more_link l2 R1 H1 (cos_sin_unit t2)) as H2.
  assert (R2 : (0 <= 0 + Rabs l0 + Rabs l1 + Rabs l2)%R)
    by (pose proof (Rabs_pos l2); lra).
  pose proof (one_more_link l3 R2 H2 (cos_sin_unit t3)) as H3.
  eapply Rle_trans; [| eapply Rle_trans; [exact H3 |]]; right; ring.
Qed.

(** The hand is never farther from the shoulder than the total length of
    the four links, whatever the joint angles are. *)
Theorem get_xy_within_reach (self : Arm3Link.t R) (q : list R) (x y : R) :
  Arm3Link.get_xy self (Some q) = Ok [x; y] ->
  (x * x + y * y <= reach self * reach self)%R.
Proof.
  intros Hxy. unfold reach.
  destruct (Arm3Link.L self) as [|l0 [|l1 [|l2 [|l3 L']]]] eqn:HL;
    try (unfold Arm3Link.get_xy in Hxy; rewrite HL in Hxy;
         destruct q as [|a [|b [|c rest]]]; discriminate Hxy).
  destruct q as [|a [|b [|c rest]]];
    try (unfold Arm3Link.get_xy in Hxy; rewrite HL in Hxy; discriminate Hxy).
  rewrite (get_xy_closed_form self a b c rest HL) in Hxy.
  injection Hxy as Hx Hy. subst x y. cbn [firstn map Rsum fold_right].
  apply links_within_reach.
Qed.

Lemma get_xy_within_reach_witness :
  exists x y : R,
    Arm3Link.get_xy bent_arm (Some [1; 2; 3; 4]%R) = Ok [x; y] /\
    (x * x + y * y <= reach bent_arm * reach bent_arm)%R.
Proof.
  eexists. eexists. split; [reflexivity |].
  apply (@get_xy_within_reach bent_arm [1; 2; 3; 4]%R). reflexivity.
Defined.

(** With the three last joints straight, the arm is a single segment of
    the summed length in the direction of the first joint: the reach is
    attained. *)
Theorem get_xy_straight_arm (self : Arm3Link.t R) (a : R) :
  (4 <= length (Arm3Link.L self))%nat ->
  Arm3Link.get_xy self (Some [a; 0; 0; 0]%R) =
    Ok [(Rsum (firstn 4 (Arm3Link.L self)) * cos a)%R;
        (Rsum (firstn 4 (Arm3Link.L self)) * sin a)%R].
Proof.
  intros HL.
  destruct (length_ge_4_inv _ HL) as [l0 [l1 [l2 [l3 [L' HL']]]]].
  rewrite (get_xy_closed_form self a 0 0 [0%R] HL'), HL'.
  cbn [firstn Rsum fold_right].
  replace (a + 0 + 0 + (0 + 0))%R with a by lra.
  replace (a + 0 + 0)%R with a by lra.
  replace (a + 0)%R with a by lra.
  apply Ok_pair_eq; ring.
Qed.

Lemma get_xy_straight_arm_witness :
  (4 <= length (Arm3Link.L unit_arm))%nat /\
  Arm3Link.get_xy unit_arm (Some [1; 0; 0; 0]%R) =
    Ok [(Rsum (firstn 4 (Arm3Link.L unit_arm)) * cos 1)%R;
        (Rsum (firstn 4 (Arm3Link.L unit_arm)) * sin 1)%R].
Proof.
  split; [apply le_n |].
  apply (@get_xy_straight_arm unit_arm 1%R). apply le_n.
Defined.

(** Angles after the fourth are not ignored: [np.sum] adds them to the
    direction of the last link, as if they were part of the fourth angle.
    With three angles only, the last link continues the third one. *)
Theorem get_xy_extra_angles (self : Arm3Link.t R) (a b c : R) (rest : list R) :
  Arm3Link.get_xy self (Some (a :: b :: c :: rest)) =
    Arm3Link.get_xy self (Some [a; b; c; Rsum rest]).
Proof.
  destruct (Arm3Link.L self) as [|l0 [|l1 [|l2 [|l3 L']]]] eqn:HL;
    try (unfold Arm3Link.get_xy; rewrite HL; reflexivity).
  rewrite !(get_xy_closed_form self _ _ _ _ HL).
  cbn [Rsum fold_right].
  replace (Rsum rest + 0)%R with (Rsum rest) by lra.
  reflexivity.
Qed.

(** Turning the first joint by [delta] turns the hand by [delta] about the
    shoulder. *)
Theorem get_xy_shoulder_rotation
  (self : Arm3Link.t R) (a b c delta x y : R) (rest : list R) :
  Arm3Link.get_xy self (Some (a :: b :: c :: rest)) = Ok [x; y] ->
  Arm3Link.get_xy self (Some ((a + delta)%R :: b :: c :: rest)) =
    Ok [(x * cos delta - y * sin delta)%R;
        (x * sin delta + y * cos delta)%R].
Proof.
  intros Hxy.
  destruct (Arm3Link.L self) as [|l0 [|l1 [|l2 [|l3 L']]]] eqn:HL;
    try (unfold Arm3Link.get_xy in Hxy; rewrite HL in Hxy; discriminate Hxy).
  rewrite (get_xy_closed_form self _ _ _ _ HL) in Hxy.
  rewrite (get_xy_closed_form self _ _ _ _ HL).
  injection Hxy as Hx Hy. subst x y.
  replace (a + delta + b)%R with (a + b + delta)%R by lra.
  replace (a + b + delta + c)%R with (a + b + c + delta)%R by lra.
  replace (a + b + c + delta + Rsum rest)%R
    with (a + b + c + Rsum rest + delta)%R by lra.
  rewrite (cos_plus a delta), (sin_plus a delta),
    (cos_plus (a + b) delta), (sin_plus (a + b) delta),
    (cos_plus (a + b + c) delta), (sin_plus (a + b + c) delta),
    (cos_plus (a + b + c + Rsum rest) delta),
    (sin_plus (a + b + c + Rsum rest) delta).
  apply Ok_pair_eq; ring.
Qed.

Lemma get_xy_shoulder_rotation_witness :
  exists x y : R,
    Arm3Link.get_xy unit_arm (Some [1; 2; 3; 4]%R) = Ok [x; y] /\
    Arm3Link.get_xy unit_arm (Some [(1 + 5)%R; 2; 3; 4]%R) =
      Ok [(x * cos 5 - y * sin 5)%R; (x * sin 5 + y * cos 5)%R].
Proof.
  eexists. eexists. split; [reflexivity |].
  apply (@get_xy_shoulder_rotation unit_arm 1 2 3 5). reflexivity.
Defined.

Lemma Rsum_map_opp (l : list R) : Rsum (map Ropp l) = (- Rsum l)%R.
Proof.
  induction l as [|a l IH]; simpl.
  - lra.
  - fold (Rsum (map Ropp l)). fold (Rsum l). rewrite IH. lra.
Qed.

(** Negating every joint angle mirrors the hand in the axis of the first
    coordinate. *)
Theorem get_xy_mirror (self : Arm3Link.t R) (q : list R) (x y : R) :
  Arm3Link.get_xy self (Some q) = Ok [x; y] ->
  Arm3Link.get_xy self (Some (map Ropp q)) = Ok [x; (- y)%R].
Proof.
  intros Hxy.
  destruct (Arm3Link.L self) as [|l0 [|l1 [|l2 [|l3 L']]]] eqn:HL;
    try (unfold Arm3Link.get_xy in Hxy; rewrite HL in Hxy;
         destruct q as [|a [|b [|c rest]]]; discriminate Hxy).
  destruct q as [|a [|b [|c rest]]];
    try (unfold Arm3Link.get_xy in Hxy; rewrite HL in Hxy; discriminate Hxy).
  rewrite (get_xy_closed_form self _ _ _ _ HL) in Hxy.
  cbn [map]. rewrite (get_xy_closed_form self _ _ _ _ HL), Rsum_map_opp.
  injection Hxy as Hx Hy. subst x y.
  replace (- a + - b)%R with (- (a + b))%R by lra.
  replace (- (a + b) + - c)%R with (- (a + b + c))%R by lra.
  replace (- (a + b + c) + - Rsum rest)%R
    with (- (a + b + c + Rsum rest))%R by lra.
  rewrite !cos_neg, !sin_neg.
  apply Ok_pair_eq; ring.
Qed.

Lemma get_xy_mirror_witness :
  exists x y : R,
    Arm3Link.get_xy unit_arm (Some [1; 2; 3; 4]%R) = Ok [x; y] /\
    Arm3Link.get_xy unit_arm (Some (map Ropp [1; 2; 3; 4]%R)) =
      Ok [x; (- y)%R].
Proof.
  eexists. eexists. split; [reflexivity |].
  apply (@get_xy_mirror unit_arm [1; 2; 3; 4]%R). reflexivity.
Defined.

(** The hand position is proportional to the link lengths: an arm whose
    links are [k] times as long puts the hand [k] times as far, in the same
    direction. *)
Theorem get_xy_scales_with_lengths
  (self self' : Arm3Link.t R) (k : R) (q : list R) (x y : R) :
  Arm3Link.L self' = map (Rmult k) (Arm3Link.L self) ->
  Arm3Link.get_xy self (Some q) = Ok [x; y] ->
  Arm3Link.get_xy self' (Some q) = Ok [(k * x)%R; (k * y)%R].
Proof.
  intros HL' Hxy.
  destruct (Arm3Link.L self) as [|l0 [|l1 [|l2 [|l3 L0]]]] eqn:HL;
    try (unfold Arm3Link.get_xy in Hxy; rewrite HL in Hxy;
         destruct q as [|a [|b [|c rest]]]; discriminate Hxy).
  destruct q as [|a [|b [|c rest]]];
    try (unfold Arm3Link.get_xy in Hxy; rewrite HL in Hxy; discriminate Hxy).
  rewrite (get_xy_closed_form self _ _ _ _ HL) in Hxy.
  cbn [map] in HL'. rewrite (get_xy_closed_form self' _ _ _ _ HL').
  injection Hxy as Hx Hy. subst x y.
  apply Ok_pair_eq; ring.
Qed.

Lemma get_xy_scales_with_lengths_witness :
  exists x y : R,
    Arm3Link.L long_arm = map (Rmult 2) (Arm3Link.L bent_arm) /\
    Arm3Link.get_xy bent_arm (Some [1; 2; 3; 4]%R) = Ok [x; y] /\
    Arm3Link.get_xy long_arm (Some [1; 2; 3; 4]%R) =
      Ok [(2 * x)%R; (2 * y)%R].
Proof.
  eexists. eexists. split; [reflexivity | split; [reflexivity |]].
  apply (@get_xy_scales_with_lengths bent_arm long_arm 2 [1; 2; 3; 4]%R);
    reflexivity.
Defined.

(** ** Further properties of the constraints *)

(** Both constraints vanish exactly when the hand is at the target: a joint
    vector is feasible for the solver if and only if [get_xy] of it is the
    target. *)
Theorem constraints_vanish_iff_target_reached
  (self : Arm3Link.t R) (q : list R) (tx ty : R) :
  (Arm3Link.x_constraint self q [tx; ty] = Ok 0%R /\
   Arm3Link.y_constraint self q [tx; ty] = Ok 0%R) <->
  Arm3Link.get_xy self (Some q) = Ok [tx; ty].
Proof.
  destruct (Arm3Link.L self) as [|l0 [|l1 [|l2 [|l3 L']]]] eqn:HL;
    try (unfold Arm3Link.x_constraint, Arm3Link.get_xy; rewrite HL;
         destruct q as [|a [|b [|c rest]]];
         (split; [intros [Hx _]; cbn in Hx; discriminate Hx
                 | intros Hxy; cbn in Hxy; discriminate Hxy])).
  destruct q as [|a [|b [|c rest]]];
    try (unfold Arm3Link.x_constraint, Arm3Link.get_xy; rewrite HL;
         split; [intros [Hx _]; cbn in Hx; discriminate Hx
                | intros Hxy; cbn in Hxy; discriminate Hxy]).
  rewrite (x_constraint_closed_form self _ _ _ _ _ _ HL),
    (y_constraint_closed_form self _ _ _ _ _ _ _ HL),
    (get_xy_closed_form self _ _ _ _ HL).
  split.
  - intros [Hx Hy]. injection Hx as Hx. injection Hy as Hy.
    apply Ok_pair_eq; lra.
  - intros Hxy. injection Hxy as Hx Hy.
    split; f_equal; lra.
Qed.

(** ** Further properties of the objective *)

Lemma distance_to_default_closed_form (self : Arm3Link.t R)
  (a b c d r0 r1 r2 r3 : R) (r' xy : list R) :
  Arm3Link.q0 self = r0 :: r1 :: r2 :: r3 :: r' ->
  Arm3Link.distance_to_default self [a; b; c; d] xy =
    Ok (sqrt (Rsqr (a - r0) + Rsqr (b - r1) + 1.3 * Rsqr (c - r2) +
              Rsqr (d - r3))).
Proof.
  intros Hr. unfold Arm3Link.distance_to_default. rewrite Hr.
  cbn. unfold ret. rewrite Q2R_zero, Q2R_one.
  replace (Q2R 1.3) with 1.3%R by reflexivity.
  do 2 f_equal. unfold Rsqr. ring.
Qed.

Lemma weighted_squares_nonneg (u v w z : R) :
  (0 <= Rsqr u + Rsqr v + 1.3 * Rsqr w + Rsqr z)%R.
Proof.
  pose proof (Rle_0_sqr u). pose proof (Rle_0_sqr v).
  pose proof (Rle_0_sqr w). pose proof (Rle_0_sqr z). lra.
Qed.

(** The objective is never negative, and for four-element vectors it is
    zero at the rest pose and nowhere else. *)
Theorem distance_to_default_zero_iff_rest_pose
  (self : Arm3Link.t R) (q xy : list R) :
  length q = 4%nat ->
  length (Arm3Link.q0 self) = 4%nat ->
  exists v : R,
    Arm3Link.distance_to_default self q xy = Ok v /\
    (0 <= v)%R /\
    (v = 0%R <-> q = Arm3Link.q0 self).
Proof.
  intros Hq Hr.
  destruct (length_4_inv q Hq) as [a [b [c [d Eq]]]]; subst q.
  destruct (length_4_inv _ Hr) as [r0 [r1 [r2 [r3 Hr']]]].
  rewrite (distance_to_default_closed_form self a b c d xy Hr'), Hr'.
  eexists. split; [reflexivity | split; [apply sqrt_pos |]].
  split.
  - intros Hv.
    apply sqrt_eq_0 in Hv; [| apply weighted_squares_nonneg].
    pose proof (Rle_0_sqr (a - r0)) as Ha.
    pose proof (Rle_0_sqr (b - r1)) as Hb.
    pose proof (Rle_0_sqr (c - r2)) as Hc.
    pose proof (Rle_0_sqr (d - r3)) as Hd.
    assert (Ha0 : Rsqr (a - r0) = 0%R) by lra.
    assert (Hb0 : Rsqr (b - r1) = 0%R) by lra.
    assert (Hc0 : Rsqr (c - r2) = 0%R) by lra.
    assert (Hd0 : Rsqr (d - r3) = 0%R) by lra.
    apply Rsqr_0_uniq in Ha0, Hb0, Hc0, Hd0.
    repeat f_equal; lra.
  - intros Heq. injection Heq as -> -> -> ->.
    replace (Rsqr (r0 - r0) + Rsqr (r1 - r1) + 1.3 * Rsqr (r2 - r2) +
             Rsqr (r3 - r3))%R with 0%R by (unfold Rsqr; ring).
    apply sqrt_0.
Qed.

Lemma distance_to_default_zero_iff_rest_pose_witness :
  length [1; 2; 3; 4]%R = 4%nat /\
  length (Arm3Link.q0 unit_arm) = 4%nat /\
  exists v : R,
    Arm3Link.distance_to_default unit_arm [1; 2; 3; 4]%R [4; 0]%R = Ok v /\
    (0 <= v)%R /\
    (v = 0%R <-> [1; 2; 3; 4]%R = Arm3Link.q0 unit_arm).
Proof.
  split; [reflexivity | split; [reflexivity |]].
  apply (@distance_to_default_zero_iff_rest_pose unit_arm
           [1; 2; 3; 4]%R [4; 0]%R); reflexivity.
Defined.

(** Moving one joint by [delta] away from the rest pose costs the square
    root of the weight of that joint times [|delta|]: the third joint costs
    [sqrt 1.3] per radian, each other joint 1. *)
Theorem distance_to_default_one_joint
  (self : Arm3Link.t R) (i : nat) (delta : R) (xy : list R) :
  length (Arm3Link.q0 self) = 4%nat ->
  (i < 4)%nat ->
  Arm3Link.distance_to_default self
    (shift_joint i delta (Arm3Link.q0 self)) xy =
    Ok (sqrt (nth i Arm3Link.weight 0) * Rabs delta)%R.
Proof.
  intros Hr Hi.
  destruct (length_4_inv _ Hr) as [r0 [r1 [r2 [r3 Hr']]]].
  rewrite Hr'.
  assert (Hone : forall u : R, sqrt (Rsqr u) = (sqrt (Q2R 1) * Rabs u)%R).
  { intros u. rewrite Q2R_one, sqrt_1, sqrt_Rsqr_abs. ring. }
  destruct i as [|[|[|[|i]]]]; [| | | | lia];
    cbn [shift_joint nth Arm3Link.weight];
    rewrite (distance_to_default_closed_form self _ _ _ _ xy Hr');
    f_equal.
  - rewrite <- Hone. f_equal. unfold Rsqr. ring.
  - rewrite <- Hone. f_equal. unfold Rsqr. ring.
  - replace (Q2R 1.3) with 1.3%R by reflexivity.
    rewrite <- sqrt_Rsqr_abs.
    rewrite <- sqrt_mult_alt by (unfold Q2R; simpl; lra).
    f_equal. change (flit 1.3) with 1.3%R. unfold Rsqr. ring.
  - rewrite <- Hone. f_equal. unfold Rsqr. ring.
Qed.

Lemma distance_to_default_one_joint_witness :
  length (Arm3Link.q0 unit_arm) = 4%nat /\
  (2 < 4)%nat /\
  Arm3Link.distance_to_default unit_arm
    (shift_joint 2 1 (Arm3Link.q0 unit_arm)) [4; 0]%R =
    Ok (sqrt (nth 2 Arm3Link.weight 0) * Rabs 1)%R.
Proof.
  split; [reflexivity | split; [repeat constructor |]].
  apply (@distance_to_default_one_joint unit_arm 2 1 [4; 0]%R);
    [reflexivity | repeat constructor].
Defined.

(** ** The solver's problem as a whole *)

(** When the target is the hand position of the rest pose, the rest pose
    satisfies both constraints with objective zero, and no joint vector
    has a smaller objective: it is a solution of the problem that [inv_kin]
    gives to the optimizer. *)
Theorem rest_pose_solves_its_own_target
  (self : Arm3Link.t R) (xy : list R) :
  length (Arm3Link.q0 self) = 4%nat ->
  Arm3Link.get_xy self (Some (Arm3Link.q0 self)) = Ok xy ->
  Arm3Link.x_constraint self (Arm3Link.q0 self) xy = Ok 0%R /\
  Arm3Link.y_constraint self (Arm3Link.q0 self) xy = Ok 0%R /\
  Arm3Link.distance_to_default self (Arm3Link.q0 self) xy = Ok 0%R /\
  forall q : list R,
    exists v : R,
      Arm3Link.distance_to_default self q xy = Ok v /\ (0 <= v)%R.
Proof.
  intros Hr Hxy.
  destruct (length_4_inv _ Hr) as [r0 [r1 [r2 [r3 Hr']]]].
  destruct (Arm3Link.L self) as [|l0 [|l1 [|l2 [|l3 L']]]] eqn:HL;
    try (unfold Arm3Link.get_xy in Hxy; rewrite HL, Hr' in Hxy;
         cbn in Hxy; discriminate Hxy).
  rewrite Hr' in Hxy |- *.
  rewrite (distance_to_default_closed_form self r0 r1 r2 r3 xy Hr').
  rewrite (get_xy_closed_form self _ _ _ _ HL) in Hxy.
  injection Hxy as Hxy. subst xy.
  rewrite (x_constraint_closed_form self _ _ _ _ _ _ HL),
    (y_constraint_closed_form self _ _ _ _ _ _ _ HL).
  cbn [Rsum fold_right].
  split; [f_equal; lra | split; [f_equal; lra | split]].
  - f_equal.
    replace (Rsqr (r0 - r0) + Rsqr (r1 - r1) + 1.3 * Rsqr (r2 - r2) +
             Rsqr (r3 - r3))%R with 0%R by (unfold Rsqr; ring).
    apply sqrt_0.
  - intros q. unfold Arm3Link.distance_to_default.
    eexists. split; [reflexivity | apply sqrt_pos].
Qed.

Lemma rest_pose_solves_its_own_target_witness :
  exists xy : list R,
    length (Arm3Link.q0 bent_arm) = 4%nat /\
    Arm3Link.get_xy bent_arm (Some (Arm3Link.q0 bent_arm)) = Ok xy /\
    Arm3Link.x_constraint bent_arm (Arm3Link.q0 bent_arm) xy = Ok 0%R.
Proof.
  eexists. split; [reflexivity | split; [reflexivity |]].
  apply (@rest_pose_solves_its_own_target bent_arm); reflexivity.
Defined.

Lemma Q2R_four : Q2R 4 = 4%R.
Proof. unfold Q2R; simpl; lra. Qed.

(** Every arm that the constructor builds has ordered joint limits, and a
    default pose, current or resting, lies within them. *)
Theorem init_limits_contain_default_pose (q q0 L : option (list R)) :
  exists arm : Arm3Link.t R,
    Arm3Link.__init__ q q0 L = Ok arm /\
    Forall2 Rlt (Arm3Link.min_angles arm) (Arm3Link.max_angles arm) /\
    (q = None ->
     Forall2 Rle (Arm3Link.min_angles arm) (Arm3Link.q arm) /\
     Forall2 Rle (Arm3Link.q arm) (Arm3Link.max_angles arm)) /\
    (q0 = None ->
     Forall2 Rle (Arm3Link.min_angles arm) (Arm3Link.q0 arm) /\
     Forall2 Rle (Arm3Link.q0 arm) (Arm3Link.max_angles arm)).
Proof.
  pose proof PI_RGT_0 as Hpi.
  eexists. split; [reflexivity |].
  cbn. rewrite !Q2R_zero, !Q2R_four.
  split; [repeat constructor; lra |].
  split; intros ->; split; repeat constructor; lra.
Qed.

(** [findJointPos(x, y)] starts the optimizer at [pi/4, pi/4, 0, 0], where
    the objective is zero and the hand is at [(1/sqrt 2, 3 + 1/sqrt 2)]:
    the two constraints start at the difference between that point and the
    target. *)
Theorem findJointPos_starting_point
  (fmin_slsqp : slsqp_call R -> result (list R)) (x y : R) :
  exists call : slsqp_call R,
    findJointPos fmin_slsqp x y = fmin_slsqp call /\
    x0 call = [PI / 4; PI / 4; 0; 0]%R /\
    args call = [x; y] /\
    func call (x0 call) (args call) = Ok 0%R /\
    map (fun g : callback R => g (x0 call) (args call)) (eqcons call) =
      [Ok (1 / sqrt 2 - x)%R; Ok (3 + 1 / sqrt 2 - y)%R].
Proof.
  eexists. split; [reflexivity |].
  cbn [findJointPos Arm3Link.__init__ Arm3Link.inv_kin_call x0 args func
       eqcons bind ret Arm3Link.q map].
  cbn [flit fpi fdiv fneg R_Scalar].
  rewrite !Q2R_zero, !Q2R_four, !Q2R_one.
  split; [reflexivity | split; [reflexivity |]].
  set (arm := {| Arm3Link.q := [PI / 4; PI / 4; 0; 0]%R;
                 Arm3Link.q0 := [PI / 4; PI / 4; 0; 0]%R;
                 Arm3Link.L := [1; 1; 1; 1]%R;
                 Arm3Link.max_angles := [PI; PI; PI; PI];
                 Arm3Link.min_angles := [0; 0; - PI; - PI]%R |}).
  assert (HL : Arm3Link.L arm = [1; 1; 1; 1]%R) by reflexivity.
  assert (Hr : Arm3Link.q0 arm = [PI / 4; PI / 4; 0; 0]%R) by reflexivity.
  rewrite (distance_to_default_closed_form arm _ _ _ _ [x; y] Hr),
    (x_constraint_closed_form arm _ _ _ _ _ _ HL),
    (y_constraint_closed_form arm _ _ _ _ _ _ _ HL).
  cbn [Rsum fold_right].
  replace (PI / 4 + PI / 4 + 0 + (0 + 0))%R with (PI / 2)%R by lra.
  replace (PI / 4 + PI / 4 + 0)%R with (PI / 2)%R by lra.
  replace (PI / 4 + PI / 4)%R with (PI / 2)%R by lra.
  rewrite cos_PI2, sin_PI2, cos_PI4, sin_PI4.
  split.
  - f_equal.
    replace (Rsqr (PI / 4 - PI / 4) + Rsqr (PI / 4 - PI / 4) +
             1.3 * Rsqr (0 - 0) + Rsqr (0 - 0))%R with 0%R
      by (unfold Rsqr; ring).
    apply sqrt_0.
  - replace (1 * (1 / sqrt 2) + 1 * 0 + 1 * 0 + 1 * 0 - x)%R
      with (1 / sqrt 2 - x)%R by lra.
    replace (1 * (1 / sqrt 2) + 1 * 1 + 1 * 1 + 1 * 1 - y)%R
      with (3 + 1 / sqrt 2 - y)%R by lra.
    reflexivity.
Qed.

(** A target farther from the shoulder than the total length of the links
    is infeasible: no joint vector makes both constraints vanish. *)
Theorem constraints_infeasible_beyond_reach
  (self : Arm3Link.t R) (q : list R) (tx ty : R) :
  (reach self * reach self < tx * tx + ty * ty)%R ->
  ~ (Arm3Link.x_constraint self q [tx; ty] = Ok 0%R /\
     Arm3Link.y_constraint self q [tx; ty] = Ok 0%R).
Proof.
  intros Hfar [Hx Hy]. unfold reach in Hfar.
  destruct (Arm3Link.L self) as [|l0 [|l1 [|l2 [|l3 L']]]] eqn:HL;
    try (unfold Arm3Link.x_constraint in Hx; rewrite HL in Hx;
         destruct q as [|a [|b [|c rest]]]; cbn in Hx; discriminate Hx).
  destruct q as [|a [|b [|c rest]]];
    try (unfold Arm3Link.x_constraint in Hx; rewrite HL in Hx;
         cbn in Hx; discriminate Hx).
  rewrite (x_constraint_closed_form self _ _ _ _ _ _ HL) in Hx.
  rewrite (y_constraint_closed_form self _ _ _ _ _ _ _ HL) in Hy.
  injection Hx as Hx. injection Hy as Hy.
  cbn [firstn map Rsum fold_right] in Hfar.
  pose proof (links_within_reach l0 l1 l2 l3 a (a + b) (a + b + c)
                (a + b + c + Rsum rest)) as Hin.
  replace (l0 * cos a + l1 * cos (a + b) + l2 * cos (a + b + c) +
           l3 * cos (a + b + c + Rsum rest))%R with tx in Hin by lra.
  replace (l0 * sin a + l1 * sin (a + b) + l2 * sin (a + b + c) +
           l3 * sin (a + b + c + Rsum rest))%R with ty in Hin by lra.
  lra.
Qed.

Lemma constraints_infeasible_beyond_reach_witness :
  (reach unit_arm * reach unit_arm < 100 * 100 + 100 * 100)%R /\
  ~ (Arm3Link.x_constraint unit_arm [1; 2; 3; 4]%R [100; 100]%R = Ok 0%R /\
     Arm3Link.y_constraint unit_arm [1; 2; 3; 4]%R [100; 100]%R = Ok 0%R).
Proof.
  assert (Hfar : (reach unit_arm * reach unit_arm < 100 * 100 + 100 * 100)%R).
  { unfold reach. cbn [unit_arm Arm3Link.L firstn map Rsum fold_right].
    rewrite Rabs_R1. lra. }
  split; [exact Hfar |].
  apply (@constraints_infeasible_beyond_reach unit_arm
           [1; 2; 3; 4]%R 100 100 Hfar).
Defined.

Lemma distance_to_default_ignores_extra_angles_witness :
  (4 <= length [1; 2; 3; 4]%R)%nat /\
  Arm3Link.distance_to_default unit_arm ([1; 2; 3; 4]%R ++ [5; 6]%R)
    [4; 0]%R =
    Arm3Link.distance_to_default unit_arm [1; 2; 3; 4]%R [4; 0]%R.
Proof.
  split; [apply le_n |].
  apply (@distance_to_default_ignores_extra_angles R R_Scalar unit_arm
           [1; 2; 3; 4]%R [5; 6]%R [4; 0]%R). apply le_n.
Defined.
